(** * simon-backend: the order service and the session-token helpers

    A shallow embedding of [src/domain/service/OrderService.js],
    [src/utils/jwt.js] and the address model; the token package that
    [jwt.js] calls is modelled from the spec.  Asynchronous calls to the order repository are
    sequenced in a small state-and-exception monad whose state holds the
    repository's store together with the log of the repository calls issued
    so far, so that "no call was made" is a statement about that log. *)

From Stdlib Require Import ZArith String Ascii List Bool Lia DecimalString.
Import ListNotations.
Open Scope string_scope.

(** ** JavaScript values *)

Module JS.

#[local] Set Warnings "-register-all".

(** The values the service inspects.  Numbers are the integers plus [NaN];
    identifiers, quantities and status codes are integral in this program. *)
Inductive value : Type :=
| undefined
| null
| boolean (b : bool)
| number (z : Z)
| NaN
| str (s : string)
| object (props : list (string * value))
| array (elems : list value).

(** An object literal: its own properties, in insertion order. *)
Definition Obj : Type := list (string * value).

(** [o.k]: the property when present, [undefined] otherwise. *)
Fixpoint prop (o : Obj) (k : string) : value :=
  match o with
  | [] => undefined
  | (k', v) :: rest => if String.eqb k' k then v else prop rest k
  end.

(** ToBoolean. *)
Definition truthy (v : value) : bool :=
  match v with
  | undefined | null | NaN => false
  | boolean b => b
  | number z => negb (Z.eqb z 0)
  | str s => negb (String.eqb s "")
  | object _ | array _ => true
  end.

(** [!v] *)
Definition not (v : value) : bool := negb (truthy v).

(** [a || b] on values: the left operand when it is truthy. *)
Definition or (a b : value) : value := if truthy a then a else b.

(** A default parameter [x = d]: the default replaces [undefined] only. *)
Definition default (d x : value) : value :=
  match x with
  | undefined => d
  | _ => x
  end.

Definition string_of_Z (z : Z) : string :=
  NilZero.string_of_int (Z.to_int z).

(** ToString, as a template literal applies it.  A number is printed in
    full decimal, which is how JavaScript prints the integers of magnitude
    below 10^21 (see [legible]). *)
Fixpoint toString (v : value) : string :=
  match v with
  | undefined => "undefined"
  | null => "null"
  | boolean true => "true"
  | boolean false => "false"
  | number z => string_of_Z z
  | NaN => "NaN"
  | str s => s
  | object _ => "[object Object]"
  | array elems =>
      (fix joined (l : list value) : string :=
         let piece (x : value) : string :=
           match x with
           | undefined | null => ""
           | _ => toString x
           end in
         match l with
         | [] => ""
         | [x] => piece x
         | x :: rest => piece x ++ "," ++ joined rest
         end) elems
  end.

(** [xs.join(sep)] on an array of strings. *)
Definition join (sep : string) (xs : list string) : string :=
  String.concat sep xs.

(** [xs.includes(s)] on an array of strings. *)
Definition includes (xs : list string) (s : string) : bool :=
  existsb (String.eqb s) xs.

(** [Object.values(o)] for an enum object whose values are strings. *)
Definition values (o : list (string * string)) : list string :=
  map snd o.

(** The values whose [toString] above is the JavaScript one without
    reservation: the primitives, with integers below 10^21 in magnitude
    (from there on JavaScript switches to exponent notation). *)
Definition legible (v : value) : Prop :=
  match v with
  | number z => (Z.abs z < 10 ^ 21)%Z
  | object _ | array _ => False
  | _ => True
  end.

End JS.

(** ** Errors *)

Module Errors.

(** What a rejected repository promise carries when it is an error object:
    the two fields the service reads from it.  A promise rejected with a
    value that is no object is outside this model. *)
Record JSError : Type := mkJSError {
  message : string;
  statusCode : JS.value
}.

(** What the service throws.  [AppError msg code] records the constructor
    call [new AppError(msg, code)], with [JS.undefined] for an omitted
    second argument; [Rejected e] is a repository failure the service does
    not catch and so rethrows as the object it is, of whatever class. *)
Inductive Thrown : Type :=
| NotFoundError (msg : string)
| AppError (msg : string) (code : JS.value)
| Rejected (e : JSError).

(** Modelled from the spec: [src/domain/exception/AppError.js] is not
    among the sources; section 7 gives an application error the code 500
    "unless a specific code is attached". *)
Definition AppError_statusCode (code : JS.value) : JS.value :=
  JS.default (JS.number 500) code.

End Errors.

(** ** The repository and the monad of service calls *)

Module Repo.
Import Errors.

(** An order line as the caller passes it, an object:
    [{ platilloId, cantidad }]. *)
Definition Platillo : Type := JS.Obj.

(** The result header of an UPDATE. *)
Record UpdateResult : Type := mkUpdateResult { affectedRows : Z }.

(** One entry of the call log per repository method invoked. *)
Inductive Call : Type :=
| CallFindAll (restaurantId : JS.value)
| CallFindOrderById (id : JS.value)
| CallFindPlatilloById (pedidoId platilloId : JS.value)
| CallUpdatePlatilloStatus (pedidoId platilloId : JS.value) (estado : string)
| CallUpdateStatusById (id : JS.value) (estado : string)
| CallCreate (orderData : JS.value) (platillos : list Platillo)
| CallCancelOrder (pedidoId platilloId : JS.value).

(** How a service call ends. *)
Inductive Outcome (A : Type) : Type :=
| Return (a : A)
| Throw (e : Thrown).

Arguments Return {A} a.
Arguments Throw {A} e.

Section Repository.
(** The store behind the repository. *)
Variable DB : Type.

(** A repository method: it may change the store, and its promise either
    resolves to a value or rejects. *)
Definition Method (A : Type) : Type := DB -> (JSError + A) * DB.

(** [OrderRepository], as far as the service uses it.  [findAll] may
    resolve to no array at all ([None]). *)
Record OrderRepository : Type := mkOrderRepository {
  findAll : JS.value -> Method (option (list JS.value));
  findOrderById : JS.value -> Method JS.value;
  findPlatilloById : JS.value -> JS.value -> Method (list JS.value);
  updatePlatilloStatus : JS.value -> JS.value -> string -> Method UpdateResult;
  updateStatusById : JS.value -> string -> Method JS.value;
  create : JS.value -> list Platillo -> Method JS.value;
  cancelOrder : JS.value -> JS.value -> Method JS.value
}.

Record World : Type := mkWorld {
  db : DB;
  calls : list Call
}.

Definition M (A : Type) : Type := World -> Outcome A * World.

Definition ret {A : Type} (a : A) : M A :=
  fun w => (Return a, w).

Definition throw {A : Type} (e : Thrown) : M A :=
  fun w => (Throw e, w).

Definition bind {A B : Type} (m : M A) (k : A -> M B) : M B :=
  fun w =>
    match m w with
    | (Return a, w') => k a w'
    | (Throw e, w') => (Throw e, w')
    end.

(** [try { m } catch (error) { h(error) }] around a repository call. *)
Definition try_catch {A : Type} (m : M A) (h : JSError -> M A) : M A :=
  fun w =>
    match m w with
    | (Throw (Rejected e), w') => h e w'
    | r => r
    end.

(** [await OrderRepository.method(...)]: log the call, run it on the
    store, and throw what a rejected promise carries. *)
Definition await {A : Type} (c : Call) (m : Method A) : M A :=
  fun w =>
    let (r, db') := m (db w) in
    let w' := mkWorld db' (calls w ++ [c]) in
    match r with
    | inl e => (Throw (Rejected e), w')
    | inr a => (Return a, w')
    end.

(** [xs.forEach(f)], where [f] may throw. *)
Fixpoint forEach {A : Type} (f : A -> M unit) (xs : list A) : M unit :=
  match xs with
  | [] => ret tt
  | x :: rest => bind (f x) (fun _ => forEach f rest)
  end.

End Repository.

Arguments ret {DB A} a _.
Arguments throw {DB A} e _.
Arguments bind {DB A B} m k _.
Arguments try_catch {DB A} m h _.
Arguments await {DB A} c m _.
Arguments forEach {DB A} f xs _.
Arguments mkWorld {DB} db calls.
Arguments db {DB} w.
Arguments calls {DB} w.
Arguments findAll {DB} o _ _.
Arguments findOrderById {DB} o _ _.
Arguments findPlatilloById {DB} o _ _ _.
Arguments updatePlatilloStatus {DB} o _ _ _ _.
Arguments updateStatusById {DB} o _ _ _.
Arguments create {DB} o _ _ _.
Arguments cancelOrder {DB} o _ _ _.

End Repo.

Declare Scope service_scope.
Delimit Scope service_scope with service.
Notation "x <- m ;; k" := (Repo.bind m (fun x => k))
  (at level 100, m at next level, right associativity) : service_scope.
Notation "m ;;; k" := (Repo.bind m (fun _ => k))
  (at level 100, right associativity) : service_scope.

(** ** OrderService *)

Module OrderService.
Import Errors Repo.
Local Open Scope service_scope.

Section Service.
Variable DB : Type.

(** [state.Pedido], the status enum of [src/utils/state.js], which is not
    among the sources: its keys and string values are a parameter. *)
Variable Pedido : list (string * string).

(** [Order.fromDB], of the order model, likewise a parameter. *)
Variable Order_fromDB : JS.value -> JS.value.

Variable OrderRepository : Repo.OrderRepository DB.

Definition validStates : list string := JS.values Pedido.

Definition invalid_estado_message : string :=
  "Estado inválido. Estados permitidos: " ++ JS.join ", " validStates ++ ".".

Definition getAll (restaurantId : JS.value) : M DB (list JS.value) :=
  rows <- await (CallFindAll restaurantId)
                (findAll OrderRepository restaurantId) ;;
  match rows with
  | None | Some [] => throw (NotFoundError "No se encontraron pedidos.")
  | Some rs => ret (map Order_fromDB rs)
  end.

Definition getOrder (id : JS.value) : M DB JS.value :=
  try_catch
    (orderDetails <- await (CallFindOrderById id)
                           (findOrderById OrderRepository id) ;;
     ret orderDetails)
    (fun error =>
       throw (AppError ("Error al obtener el pedido con ID "
                          ++ JS.toString id ++ ": " ++ message error)
                       JS.undefined)).

Definition updatePlatilloStatus (pedidoId platilloId : JS.value)
    (estado : string) : M DB JS.value :=
  if negb (JS.includes validStates estado) then
    throw (AppError invalid_estado_message (JS.number 400))
  else
    platillo <- await (CallFindPlatilloById pedidoId platilloId)
                      (findPlatilloById OrderRepository pedidoId platilloId) ;;
    if Nat.eqb (length platillo) 0 then
      throw (NotFoundError ("Platillo con ID " ++ JS.toString platilloId
                              ++ " no encontrado en el pedido "
                              ++ JS.toString pedidoId ++ "."))
    else
      updateResult <-
        await (CallUpdatePlatilloStatus pedidoId platilloId estado)
              (Repo.updatePlatilloStatus OrderRepository
                 pedidoId platilloId estado) ;;
      if Z.eqb (affectedRows updateResult) 0 then
        throw (AppError "No se pudo actualizar el estado del platillo."
                        (JS.number 500))
      else
        ret (JS.object
               [("message", JS.str "Estado actualizado correctamente.")]).

Definition updateOrderStatus (id : JS.value) (estado : string)
    : M DB JS.value :=
  if negb (JS.includes validStates estado) then
    throw (AppError invalid_estado_message JS.undefined)
  else
    updatedOrder <- await (CallUpdateStatusById id estado)
                          (updateStatusById OrderRepository id estado) ;;
    ret updatedOrder.

(** The callback of [platillos.forEach] in [createOrder]. *)
Definition check_platillo (platillo : Platillo) : M DB unit :=
  if JS.not (JS.prop platillo "platilloId")
     || JS.not (JS.prop platillo "cantidad")
  then throw (AppError "Cada platillo debe incluir platilloId y cantidad."
                       JS.undefined)
  else ret tt.

(** [platillos] is [None] when the argument is [undefined] or [null]. *)
Definition createOrder (orderData : JS.value)
    (platillos : option (list Platillo)) : M DB JS.value :=
  match platillos with
  | None | Some [] =>
      throw (AppError "El pedido debe incluir al menos un platillo."
                      JS.undefined)
  | Some ps =>
      forEach check_platillo ps ;;;
      await (CallCreate orderData ps) (create OrderRepository orderData ps)
  end.

Definition cancelOrder (pedidoId platilloId : JS.value) : M DB JS.value :=
  let platilloId := JS.default JS.null platilloId in
  try_catch
    (await (CallCancelOrder pedidoId platilloId)
           (Repo.cancelOrder OrderRepository pedidoId platilloId))
    (fun error =>
       throw (AppError
                ("Error al cancelar el "
                   ++ (if JS.truthy platilloId then "platillo" else "pedido")
                   ++ ": " ++ message error)
                (JS.or (statusCode error) (JS.number 500)))).

End Service.

End OrderService.

(** ** The session-token helpers of [utils/jwt.js] *)

Module Jwt.
Import Errors.

(** [config.auth], as far as the helpers read it. *)
Record AuthConfig : Type := mkAuthConfig {
  jwtSecret : string;
  jwtExpiration : JS.value
}.

(** The options object passed to [res.cookie]. *)
Record CookieOptions : Type := mkCookieOptions {
  httpOnly : bool;
  secure : bool;
  sameSite : string;
  maxAge : JS.value
}.

Record Cookie : Type := mkCookie {
  cookie_name : string;
  cookie_value : string;
  cookie_options : CookieOptions
}.

(** The response object, as far as the helpers touch it: the cookies set on
    it so far, oldest first. *)
Definition Response : Type := list Cookie.

(** [res.cookie(name, value, options)] *)
Definition res_cookie (res : Response) (name value : string)
    (options : CookieOptions) : Response :=
  (res ++ [mkCookie name value options])%list.

(** [process.env.NODE_ENV]: a string when set, [undefined] otherwise. *)
Definition env_value (NODE_ENV : option string) : JS.value :=
  match NODE_ENV with
  | Some s => JS.str s
  | None => JS.undefined
  end.

(** [v !== s] for a string literal [s]. *)
Definition differs_from (v : JS.value) (s : string) : bool :=
  match v with
  | JS.str s' => negb (String.eqb s' s)
  | _ => true
  end.

(** [{ ...data }]: a fresh object with the same own properties. *)
Definition spread (data : JS.Obj) : JS.Obj := data.

Section Helpers.
(** [jwt.sign] and [jwt.verify] of the jsonwebtoken package, which the
    helpers only call. *)
Variable jwt_sign : JS.Obj -> string -> JS.value -> string.
Variable jwt_verify : string -> string -> JSError + JS.Obj.

Variable config : AuthConfig.

Definition createJWT (data : JS.Obj) : string :=
  jwt_sign (spread data) (jwtSecret config) (jwtExpiration config).

Definition createCookie (NODE_ENV : option string) (res : Response)
    (name value : string) : Response :=
  let isProduction :=
    JS.not (env_value NODE_ENV)
    || differs_from (env_value NODE_ENV) "development" in
  res_cookie res name value
    (mkCookieOptions true
                     isProduction
                     (if isProduction then "None" else "Lax")
                     (jwtExpiration config)).

Definition createJWTCookie (NODE_ENV : option string) (res : Response)
    (data : JS.Obj) : Response :=
  let token := createJWT data in
  createCookie NODE_ENV res "token" token.

Definition verifyJWT (token : string) : JSError + JS.Obj :=
  jwt_verify token (jwtSecret config).

End Helpers.

End Jwt.

(** ** The token format

    Modelled from the spec: section 3 describes a session token as an
    opaque signed payload encoding the caller's claims plus an expiration
    instant, and section 6 leaves the payload format open.  The format here
    is a self-delimiting one: every item says how long it is. *)

Module Wire.
Local Open Scope char_scope.
Local Open Scope list_scope.

(** Modelled from the spec: token format.  The characters of a token. *)
Definition bytes : Type := list ascii.

(** Modelled from the spec: token format.  A positive number: its binary
    digits, lowest first, closed by a dot. *)
Fixpoint put_positive (p : positive) : bytes :=
  match p with
  | xH => ["."]
  | xO q => "0" :: put_positive q
  | xI q => "1" :: put_positive q
  end.

(** Modelled from the spec: token format.  Each reader returns what it read
    and the bytes left over. *)
Fixpoint get_positive (s : bytes) : option (positive * bytes) :=
  match s with
  | [] => None
  | c :: r =>
      if Ascii.eqb c "." then Some (xH, r)
      else if Ascii.eqb c "0" then
        match get_positive r with
        | Some (q, r') => Some (xO q, r')
        | None => None
        end
      else if Ascii.eqb c "1" then
        match get_positive r with
        | Some (q, r') => Some (xI q, r')
        | None => None
        end
      else None
  end.

(** Modelled from the spec: token format.  An integer: [z] for zero,
    otherwise a sign and the magnitude. *)
Definition put_Z (z : Z) : bytes :=
  match z with
  | Z0 => ["z"]
  | Zpos p => "+" :: put_positive p
  | Zneg p => "-" :: put_positive p
  end.

(** Modelled from the spec: token format.  The reader of an integer. *)
Definition get_Z (s : bytes) : option (Z * bytes) :=
  match s with
  | [] => None
  | c :: r =>
      if Ascii.eqb c "z" then Some (Z0, r)
      else if Ascii.eqb c "+" then
        match get_positive r with
        | Some (p, r') => Some (Zpos p, r')
        | None => None
        end
      else if Ascii.eqb c "-" then
        match get_positive r with
        | Some (p, r') => Some (Zneg p, r')
        | None => None
        end
      else None
  end.

(** Modelled from the spec: token format.  A count, as an integer. *)
Definition put_nat (n : nat) : bytes := put_Z (Z.of_nat n).

(** Modelled from the spec: token format.  The reader of a count. *)
Definition get_nat (s : bytes) : option (nat * bytes) :=
  match get_Z s with
  | Some (z, r) => Some (Z.to_nat z, r)
  | None => None
  end.

(** Modelled from the spec: token format.  The first [n] bytes and the rest. *)
Fixpoint take (n : nat) (s : bytes) : option (bytes * bytes) :=
  match n with
  | O => Some ([], s)
  | S m =>
      match s with
      | [] => None
      | c :: r =>
          match take m r with
          | Some (a, b) => Some (c :: a, b)
          | None => None
          end
      end
  end.

(** Modelled from the spec: token format.  A string: its length, then its
    characters. *)
Definition put_string (s : string) : bytes :=
  put_nat (String.length s) ++ list_ascii_of_string s.

(** Modelled from the spec: token format.  The reader of a string. *)
Definition get_string (s : bytes) : option (string * bytes) :=
  match get_nat s with
  | Some (n, r) =>
      match take n r with
      | Some (a, b) => Some (string_of_list_ascii a, b)
      | None => None
      end
  | None => None
  end.

(** Modelled from the spec: token format.  A value: one tag character, then
    the content; an object or an array gives the number of its entries
    before them. *)
Fixpoint put_value (v : JS.value) : bytes :=
  match v with
  | JS.undefined => ["u"]
  | JS.null => ["n"]
  | JS.boolean true => ["t"]
  | JS.boolean false => ["f"]
  | JS.number z => "#" :: put_Z z
  | JS.NaN => ["N"]
  | JS.str s => "s" :: put_string s
  | JS.object props =>
      "o" :: put_nat (length props)
        ++ flat_map (fun kx => put_string (fst kx) ++ put_value (snd kx)) props
  | JS.array elems =>
      "a" :: put_nat (length elems) ++ flat_map put_value elems
  end.

(** Modelled from the spec: token format.  [n] items in a row, each read by
    [get]. *)
Fixpoint get_many {A : Type} (get : bytes -> option (A * bytes)) (n : nat)
    (s : bytes) : option (list A * bytes) :=
  match n with
  | O => Some ([], s)
  | S m =>
      match get s with
      | Some (x, r) =>
          match get_many get m r with
          | Some (xs, r') => Some (x :: xs, r')
          | None => None
          end
      | None => None
      end
  end.

(** Modelled from the spec: token format.  Reading a value back; [fuel]
    bounds the nesting of objects and arrays. *)
Fixpoint get_value (fuel : nat) (s : bytes) : option (JS.value * bytes) :=
  match fuel with
  | O => None
  | S f =>
      match s with
      | [] => None
      | c :: r =>
          if Ascii.eqb c "u" then Some (JS.undefined, r)
          else if Ascii.eqb c "n" then Some (JS.null, r)
          else if Ascii.eqb c "t" then Some (JS.boolean true, r)
          else if Ascii.eqb c "f" then Some (JS.boolean false, r)
          else if Ascii.eqb c "N" then Some (JS.NaN, r)
          else if Ascii.eqb c "#" then
            match get_Z r with
            | Some (z, r') => Some (JS.number z, r')
            | None => None
            end
          else if Ascii.eqb c "s" then
            match get_string r with
            | Some (x, r') => Some (JS.str x, r')
            | None => None
            end
          else if Ascii.eqb c "o" then
            match get_nat r with
            | Some (n, r1) =>
                match get_many
                        (fun s1 =>
                           match get_string s1 with
                           | Some (k, s2) =>
                               match get_value f s2 with
                               | Some (x, s3) => Some ((k, x), s3)
                               | None => None
                               end
                           | None => None
                           end) n r1 with
                | Some (props, r2) => Some (JS.object props, r2)
                | None => None
                end
            | None => None
            end
          else if Ascii.eqb c "a" then
            match get_nat r with
            | Some (n, r1) =>
                match get_many (get_value f) n r1 with
                | Some (elems, r2) => Some (JS.array elems, r2)
                | None => None
                end
            | None => None
            end
          else None
      end
  end.

(** Modelled from the spec: token format.  How deep objects and arrays are
    nested in a value. *)
Fixpoint depth (v : JS.value) : nat :=
  match v with
  | JS.object props => S (list_max (map (fun kx => depth (snd kx)) props))
  | JS.array elems => S (list_max (map depth elems))
  | _ => O
  end.

End Wire.

(** ** The token library

    The package behind [jwt.sign] and [jwt.verify] is not part of the
    repository; it is modelled here as far as the spec describes it. *)

Module JsonWebToken.
Import Errors Wire.
Local Open Scope list_scope.

Section Library.

(** Modelled from the spec: the keyed signature of the scheme, from a
    secret and a message; section 6 asks for a standard one (HMAC or
    asymmetric) and fixes none. *)
Variable mac : string -> string -> string.

(** Modelled from the spec: how long the configured expiration lasts, in
    the unit of the clock. *)
Variable duration : JS.value -> Z.

(** Modelled from the spec: what is signed is the claims, embedded as they
    were given, and the expiration instant (sections 3 and 4.3). *)
Definition signed_part (claims : JS.Obj) (expires : Z) : bytes :=
  put_value (JS.object claims) ++ put_Z expires.

(** Modelled from the spec: [jwt.sign(payload, secret, { expiresIn })] read
    at the instant [now]: "a signed token embedding the given claims and a
    fixed expiration horizon (configured duration from now)". *)
Definition sign (now : Z) (payload : JS.Obj) (secret : string)
    (expiresIn : JS.value) : string :=
  let expires := (now + duration expiresIn)%Z in
  let body := signed_part payload expires in
  string_of_list_ascii
    (body ++ put_string (mac secret (string_of_list_ascii body))).

(** Modelled from the spec: the failure of a verification, "invalid or
    expired token". *)
Definition unauthorized (msg : string) : JSError :=
  mkJSError msg JS.undefined.

(** Modelled from the spec: [jwt.verify(token, secret)] read at the instant
    [now]: it "verifies signature and expiration" and fails "when either
    check fails"; on success it gives the claims, followed by the
    expiration claim the token carries. *)
Definition verify (now : Z) (token secret : string) : JSError + JS.Obj :=
  let s := list_ascii_of_string token in
  match get_value (S (length s)) s with
  | Some (JS.object claims, r1) =>
      match get_Z r1 with
      | Some (expires, r2) =>
          match get_string r2 with
          | Some (signature, []) =>
              if String.eqb signature
                   (mac secret
                        (string_of_list_ascii (signed_part claims expires)))
              then
                if (now <? expires)%Z
                then inr (claims ++ [("exp"%string, JS.number expires)])
                else inl (unauthorized "jwt expired")
              else inl (unauthorized "invalid signature")
          | _ => inl (unauthorized "jwt malformed")
          end
      | None => inl (unauthorized "jwt malformed")
      end
  | _ => inl (unauthorized "jwt malformed")
  end.

End Library.

End JsonWebToken.

(** ** Test doubles

    A repository whose answers are fixed in advance, over a store with
    nothing in it; the concrete instances of the theorems below run the
    service against it. *)

Module Fixture.
Import Errors Repo.

Record Script : Type := mkScript {
  found_orders : option (list JS.value);
  found_platillos : list JS.value;
  update_affects : Z;
  cancel_fails : option JSError
}.

Definition answer {A : Type} (a : A) : Method unit A :=
  fun d => (inr a, d).

Definition scripted (s : Script) : OrderRepository unit :=
  mkOrderRepository unit
    (fun _ => answer (found_orders s))
    (fun id => answer (JS.object [("id", id)]))
    (fun _ _ => answer (found_platillos s))
    (fun _ _ _ => answer (mkUpdateResult (update_affects s)))
    (fun id estado => answer (JS.object [("id", id); ("estado", JS.str estado)]))
    (fun orderData _ => answer orderData)
    (fun pedidoId _ =>
       match cancel_fails s with
       | Some e => fun d => (inl e, d)
       | None => answer (JS.object [("message", JS.str "ok")])
       end).

(** An example status enum. *)
Definition Pedido : list (string * string) :=
  [("PENDIENTE", "pendiente");
   ("PREPARANDO", "preparando");
   ("LISTO", "listo");
   ("ENTREGADO", "entregado");
   ("CANCELADO", "cancelado")].

Definition start : World unit := mkWorld tt [].

(** Rows are handed on as they are. *)
Definition fromDB (row : JS.value) : JS.value := row.

Definition order_row (id : Z) : JS.value :=
  JS.object [("id", JS.number id)].

Definition platillo (platilloId cantidad : JS.value) : Platillo :=
  [("platilloId", platilloId); ("cantidad", cantidad)].

Definition orderData : JS.value :=
  JS.object [("nombre_cliente", JS.str "Ana")].

(** One unit less than nothing of dish 1. *)
Definition negative_line : Platillo :=
  platillo (JS.number 1) (JS.number (-1)).

(** Nothing stored, nothing failing. *)
Definition quiet : Script := mkScript (Some []) [] 1 None.

(** The line is found, but the write touches no row. *)
Definition stale : Script :=
  mkScript (Some []) [JS.object [("id", JS.number 2)]] 0 None.

(** Two orders stored. *)
Definition busy : Script :=
  mkScript (Some [order_row 10; order_row 11]) [] 1 None.

(** Cancelling is rejected, with a message and no status code. *)
Definition unreachable : Script :=
  mkScript (Some []) [] 1 (Some (mkJSError "sin conexion" JS.undefined)).

Definition config : Jwt.AuthConfig :=
  Jwt.mkAuthConfig "secreto" (JS.number 3600000).

(** A signer that only tags the secret; enough to run the cookie helpers. *)
Definition sign (payload : JS.Obj) (secret : string) (expiresIn : JS.value)
    : string :=
  "t." ++ secret.

End Fixture.

(** ** The address model

    The class [Address]: a constructor that normalises its three fields, a
    reader of database rows and a JSON view. *)

Module Address.

(** An instance: its three fields. *)
Record t : Type := mk {
  id : JS.value;
  ciudadId : JS.value;
  direccion : JS.value
}.

(** [new Address(data)]; [None] is an omitted (or [undefined]) argument,
    for which the default [{}] stands in. *)
Definition new (data : option JS.Obj) : t :=
  let data := match data with
              | Some d => d
              | None => []
              end in
  mk (JS.or (JS.prop data "id") JS.null)
     (JS.or (JS.prop data "ciudadId") JS.null)
     (JS.or (JS.prop data "direccion") JS.null).

(** [Address.fromDB(row)] *)
Definition fromDB (row : JS.Obj) : t :=
  new (Some [("id", JS.prop row "id");
             ("ciudadId", JS.prop row "ciudad_id");
             ("direccion", JS.prop row "direccion")]).

(** [address.toJSON()] *)
Definition toJSON (a : t) : JS.Obj :=
  [("id", id a); ("ciudadId", ciudadId a); ("direccion", direccion a)].

(** A field as the constructor leaves it: [null], or a truthy value. *)
Definition normal (v : JS.value) : Prop :=
  v = JS.null \/ JS.truthy v = true.

End Address.

(** ** More test doubles *)

Module Doubles.
Import Errors Repo.

(** A repository every call to which is rejected with the same error. *)
Definition rejecting (e : JSError) : OrderRepository unit :=
  mkOrderRepository unit
    (fun _ d => (inl e, d))
    (fun _ d => (inl e, d))
    (fun _ _ d => (inl e, d))
    (fun _ _ _ d => (inl e, d))
    (fun _ _ d => (inl e, d))
    (fun _ _ d => (inl e, d))
    (fun _ _ d => (inl e, d)).

(** "Not found", as a repository might reject with it. *)
Definition gone : JSError := mkJSError "no existe" (JS.number 404).

(** The line is found and the write touches one row. *)
Definition kept : Fixture.Script :=
  Fixture.mkScript (Some []) [JS.object [("id", JS.number 2)]] 1 None.

(** Two good lines. *)
Definition two_lines : list Platillo :=
  [Fixture.platillo (JS.number 1) (JS.number 2);
   Fixture.platillo (JS.number 3) (JS.number 1)].

(** A signature that only joins the secret and the message. *)
Definition joined (secret msg : string) : string :=
  secret ++ "/" ++ msg.

(** A configured expiration read as a number of clock units. *)
Definition units (expiresIn : JS.value) : Z :=
  match expiresIn with
  | JS.number z => z
  | _ => 0%Z
  end.

(** A row of the address table. *)
Definition address_row : JS.Obj :=
  [("id", JS.number 4); ("ciudad_id", JS.number 9);
   ("direccion", JS.str "Calle 1")].

End Doubles.

(** ** Order lines by what the check of [createOrder] sees *)

Module Lines.
Import Errors Repo.

(** Both fields of the line are truthy. *)
Definition truthy_fields (p : Platillo) : Prop :=
  JS.truthy (JS.prop p "platilloId") = true
  /\ JS.truthy (JS.prop p "cantidad") = true.

(** One of the two fields is falsy; an absent field reads as [undefined]. *)
Definition falsy_field (p : Platillo) : Prop :=
  JS.truthy (JS.prop p "platilloId") = false
  \/ JS.truthy (JS.prop p "cantidad") = false.

(** The error of a line with a falsy field. *)
Definition missing_fields : Thrown :=
  AppError "Cada platillo debe incluir platilloId y cantidad." JS.undefined.

End Lines.

(** * Properties *)

(** ** The token format reads back what it wrote *)

Module WireFacts.
Import Wire.
Local Open Scope list_scope.

Lemma get_put_positive (p : positive) (r : bytes) :
  get_positive (put_positive p ++ r) = Some (p, r).
Proof.
  induction p as [q IH | q IH |]; simpl; [now rewrite IH | now rewrite IH |].
  reflexivity.
Qed.

Lemma get_put_Z (z : Z) (r : bytes) : get_Z (put_Z z ++ r) = Some (z, r).
Proof.
  destruct z as [| p | p]; simpl; [reflexivity | |];
    now rewrite get_put_positive.
Qed.

Lemma get_put_nat (n : nat) (r : bytes) :
  get_nat (put_nat n ++ r) = Some (n, r).
Proof.
  unfold get_nat, put_nat. now rewrite get_put_Z, Nat2Z.id.
Qed.

Lemma take_app (a r : bytes) : take (length a) (a ++ r) = Some (a, r).
Proof.
  induction a as [| c a IH]; simpl; [reflexivity | now rewrite IH].
Qed.

Lemma length_list_ascii_of_string (s : string) :
  length (list_ascii_of_string s) = String.length s.
Proof.
  induction s as [| c s IH]; simpl; [reflexivity | now rewrite IH].
Qed.

Lemma get_put_string (s : string) (r : bytes) :
  get_string (put_string s ++ r) = Some (s, r).
Proof.
  unfold get_string, put_string.
  rewrite <- app_assoc, get_put_nat, <- length_list_ascii_of_string, take_app.
  now rewrite string_of_list_ascii_of_string.
Qed.

Lemma get_many_flat_map {A : Type} (put : A -> bytes)
    (get : bytes -> option (A * bytes)) (xs : list A) (r : bytes) :
  Forall (fun x => forall r', get (put x ++ r') = Some (x, r')) xs ->
  get_many get (length xs) (flat_map put xs ++ r) = Some (xs, r).
Proof.
  induction 1 as [| x xs Hx _ IH]; simpl; [reflexivity |].
  now rewrite <- app_assoc, Hx, IH.
Qed.

Lemma In_le_list_max (d : nat) (l : list nat) : In d l -> d <= list_max l.
Proof.
  intros Hin. assert (H : list_max l <= list_max l) by lia.
  apply list_max_le in H. rewrite Forall_forall in H. now apply H.
Qed.

Lemma get_put_value (fuel : nat) :
  forall (v : JS.value) (r : bytes),
    depth v < fuel -> get_value fuel (put_value v ++ r) = Some (v, r).
Proof.
  induction fuel as [| f IH]; intros v r Hd; [lia |].
  destruct v as [| | [|] | z | | s | props | elems]; simpl;
    try reflexivity.
  - now rewrite get_put_Z.
  - now rewrite get_put_string.
  - rewrite <- app_assoc, get_put_nat.
    rewrite (get_many_flat_map
               (fun kx => put_string (fst kx) ++ put_value (snd kx))); 
      [reflexivity |].
    simpl in Hd. apply Nat.succ_lt_mono in Hd.
    apply Forall_forall. intros [k x] Hin r'. simpl.
    rewrite <- app_assoc, get_put_string, IH; [reflexivity |].
    apply Nat.le_lt_trans with (2 := Hd). apply In_le_list_max.
    apply in_map_iff. now exists (k, x).
  - rewrite <- app_assoc, get_put_nat.
    rewrite (get_many_flat_map put_value); [reflexivity |].
    simpl in Hd. apply Nat.succ_lt_mono in Hd.
    apply Forall_forall. intros x Hin r'. apply IH.
    apply Nat.le_lt_trans with (2 := Hd). apply In_le_list_max.
    now apply in_map.
Qed.

(** Every level of nesting costs at least one byte. *)
Lemma depth_lt_length_upto (n : nat) :
  forall v : JS.value, depth v <= n -> depth v < length (put_value v).
Proof.
  induction n as [| n IH]; intros v Hn.
  - destruct v as [| | [|] | z | | s | props | elems]; simpl in *; lia.
  - destruct v as [| | [|] | z | | s | props | elems]; simpl in *; try lia.
    + rewrite length_app. apply -> Nat.succ_lt_mono.
      assert (Hnat : 0 < length (put_nat (length props))).
      { unfold put_nat. destruct (Z.of_nat (length props)); simpl; lia. }
      enough (list_max (map (fun kx => depth (snd kx)) props)
              <= length (flat_map
                           (fun kx => put_string (fst kx) ++ put_value (snd kx))
                           props)) by lia.
      assert (Hall : forall kx, In kx props -> depth (snd kx) <= n).
      { intros kx Hin. apply Nat.le_trans with (2 := proj2 (Nat.succ_le_mono _ _) Hn).
        apply In_le_list_max. now apply in_map_iff; exists kx. }
      clear Hn Hnat. induction props as [| [k x] props IHp]; simpl; [lia |].
      rewrite !length_app.
      pose proof (IH x (Hall (k, x) (or_introl eq_refl))) as Hx.
      assert (Hrest : forall kx, In kx props -> depth (snd kx) <= n).
      { intros kx Hin. apply Hall. now right. }
      specialize (IHp Hrest). lia.
    + rewrite length_app. apply -> Nat.succ_lt_mono.
      assert (Hnat : 0 < length (put_nat (length elems))).
      { unfold put_nat. destruct (Z.of_nat (length elems)); simpl; lia. }
      enough (list_max (map depth elems)
              <= length (flat_map put_value elems)) by lia.
      assert (Hall : forall x, In x elems -> depth x <= n).
      { intros x Hin. apply Nat.le_trans with (2 := proj2 (Nat.succ_le_mono _ _) Hn).
        apply In_le_list_max. now apply in_map. }
      clear Hn Hnat. induction elems as [| x elems IHe]; simpl; [lia |].
      rewrite !length_app.
      pose proof (IH x (Hall x (or_introl eq_refl))) as Hx.
      assert (Hrest : forall y, In y elems -> depth y <= n).
      { intros y Hin. apply Hall. now right. }
      specialize (IHe Hrest). lia.
Qed.

Lemma depth_lt_length (v : JS.value) : depth v < length (put_value v).
Proof. now apply (depth_lt_length_upto (depth v)). Qed.

End WireFacts.

(** ** Facts about the JavaScript primitives *)

Module JSFacts.

Lemma includes_In (xs : list string) (s : string) :
  JS.includes xs s = true <-> In s xs.
Proof.
  unfold JS.includes. rewrite existsb_exists. split.
  - intros [x [Hin Heq]]. apply String.eqb_eq in Heq. now subst.
  - intros Hin. exists s. split; [assumption | apply String.eqb_refl].
Qed.

Lemma includes_not_In (xs : list string) (s : string) :
  ~ In s xs -> JS.includes xs s = false.
Proof.
  intros Hn. destruct (JS.includes xs s) eqn:E; [| reflexivity].
  apply includes_In in E. contradiction.
Qed.

Lemma truthy_number (z : Z) : JS.truthy (JS.number z) = true <-> z <> 0%Z.
Proof.
  simpl. rewrite negb_true_iff, Z.eqb_neq. reflexivity.
Qed.

Lemma or_truthy (a b : JS.value) : JS.truthy a = true -> JS.or a b = a.
Proof. unfold JS.or. now intros ->. Qed.

Lemma default_defined (d x : JS.value) :
  x <> JS.undefined -> JS.default d x = x.
Proof. destruct x; intros H; try reflexivity. now contradiction H. Qed.

End JSFacts.

(** ** The order service *)

Module OrderServiceSpec.
Import Errors Repo OrderService Lines.
Local Open Scope list_scope.

Section Spec.
Variable DB : Type.
Variable Pedido : list (string * string).
Variable Order_fromDB : JS.value -> JS.value.
Variable repo : OrderRepository DB.

Local Abbreviation updatePlatilloStatus := (updatePlatilloStatus DB Pedido repo).
Local Abbreviation updateOrderStatus := (updateOrderStatus DB Pedido repo).
Local Abbreviation createOrder := (createOrder DB repo).
Local Abbreviation cancelOrder := (cancelOrder DB repo).
Local Abbreviation getAll := (getAll DB Order_fromDB repo).

(** *** Status validation *)

Lemma updatePlatilloStatus_invalid pedidoId platilloId estado w :
  ~ In estado (validStates Pedido) ->
  updatePlatilloStatus pedidoId platilloId estado w
  = (Throw (AppError (invalid_estado_message Pedido) (JS.number 400)), w).
Proof.
  intros Hn. unfold OrderService.updatePlatilloStatus.
  now rewrite (JSFacts.includes_not_In _ _ Hn).
Qed.

Lemma updateOrderStatus_invalid id estado w :
  ~ In estado (validStates Pedido) ->
  updateOrderStatus id estado w
  = (Throw (AppError (invalid_estado_message Pedido) JS.undefined), w).
Proof.
  intros Hn. unfold OrderService.updateOrderStatus.
  now rewrite (JSFacts.includes_not_In _ _ Hn).
Qed.

(** Either update returns normally only for a member of the enum. *)
Lemma updatePlatilloStatus_Return_valid pedidoId platilloId estado w r w' :
  updatePlatilloStatus pedidoId platilloId estado w = (Return r, w') ->
  In estado (validStates Pedido).
Proof.
  unfold OrderService.updatePlatilloStatus.
  destruct (JS.includes (validStates Pedido) estado) eqn:E; simpl.
  - intros _. now apply JSFacts.includes_In.
  - unfold throw. discriminate.
Qed.

Lemma updateOrderStatus_Return_valid id estado w r w' :
  updateOrderStatus id estado w = (Return r, w') ->
  In estado (validStates Pedido).
Proof.
  unfold OrderService.updateOrderStatus.
  destruct (JS.includes (validStates Pedido) estado) eqn:E; simpl.
  - intros _. now apply JSFacts.includes_In.
  - unfold throw. discriminate.
Qed.

(** C1.  For a status outside the enum both updates throw before any
    repository call and leave the world as it was; but only
    [updatePlatilloStatus] attaches the code 400 to its error.
    [updateOrderStatus] builds the same error with no code at all, so
    it carries the default of an application error, 500, and not 400. *)
Theorem updateOrderStatus_invalid_estado_lacks_400
    pedidoId platilloId estado w :
  ~ In estado (validStates Pedido) ->
  updatePlatilloStatus pedidoId platilloId estado w
  = (Throw (AppError (invalid_estado_message Pedido) (JS.number 400)), w)
  /\ updateOrderStatus pedidoId estado w
     = (Throw (AppError (invalid_estado_message Pedido) JS.undefined), w)
  /\ AppError_statusCode JS.undefined = JS.number 500
  /\ AppError_statusCode JS.undefined <> JS.number 400.
Proof.
  intros Hn. repeat split.
  - now apply updatePlatilloStatus_invalid.
  - now apply updateOrderStatus_invalid.
  - discriminate.
Qed.

(** *** Creating an order *)

Lemma check_platillo_passes p w :
  truthy_fields p -> check_platillo DB p w = (Return tt, w).
Proof.
  intros [Hid Hq]. unfold check_platillo, JS.not. now rewrite Hid, Hq.
Qed.

Lemma check_platillo_throws p w :
  falsy_field p -> check_platillo DB p w = (Throw missing_fields, w).
Proof.
  unfold check_platillo, JS.not.
  intros [H | H]; rewrite H; simpl; [reflexivity |].
  now rewrite orb_true_r.
Qed.

Lemma forEach_check_passes ps w :
  Forall truthy_fields ps -> forEach (check_platillo DB) ps w = (Return tt, w).
Proof.
  induction 1 as [| p ps Hp _ IH]; [reflexivity |].
  simpl. unfold bind. now rewrite (check_platillo_passes _ _ Hp).
Qed.

(** The loop stops at the first line with a falsy field: what follows it
    has no influence on the outcome. *)
Lemma forEach_check_stops pre bad post w :
  Forall truthy_fields pre -> falsy_field bad ->
  forEach (check_platillo DB) (pre ++ bad :: post) w
  = (Throw missing_fields, w).
Proof.
  intros Hpre Hbad. induction Hpre as [| p ps Hp _ IH]; simpl; unfold bind.
  - now rewrite (check_platillo_throws _ _ Hbad).
  - now rewrite (check_platillo_passes _ _ Hp), IH.
Qed.

(** A list with a falsy line splits at its first such line. *)
Lemma first_falsy_split ps :
  Exists falsy_field ps ->
  exists pre bad post,
    ps = pre ++ bad :: post /\ Forall truthy_fields pre /\ falsy_field bad.
Proof.
  induction ps as [| p ps IH]; intros Hex; [inversion Hex |].
  destruct (JS.truthy (JS.prop p "platilloId")) eqn:Hid;
    [destruct (JS.truthy (JS.prop p "cantidad")) eqn:Hq |].
  - assert (Hrest : Exists falsy_field ps).
    { inversion Hex as [? ? [H | H] | ]; subst; [congruence | congruence | assumption]. }
    destruct (IH Hrest) as (pre & bad & post & -> & Hpre & Hbad).
    exists (p :: pre), bad, post. repeat split; try assumption.
    constructor; [split |]; assumption.
  - exists [], p, ps. repeat split; [constructor | now right].
  - exists [], p, ps. repeat split; [constructor | now left].
Qed.

(** When every line passes, the order is handed to the repository: one
    [create] call, whose outcome is the service's. *)
Lemma createOrder_delegates orderData p ps w :
  Forall truthy_fields (p :: ps) ->
  createOrder orderData (Some (p :: ps)) w
  = await (CallCreate orderData (p :: ps))
          (create repo orderData (p :: ps)) w.
Proof.
  intros Hall. unfold OrderService.createOrder, bind.
  now rewrite (forEach_check_passes _ _ Hall).
Qed.

(** C3.  Without order lines, whether the list is empty or was not passed,
    [createOrder] throws before any repository call and the world, call log
    included, is as it was: [create] is not invoked.  But the error is an
    [AppError] built with no status code, unlike the validation error of
    [updatePlatilloStatus], which is built with 400: it carries the default
    of an application error, 500, and not 400. *)
Theorem createOrder_without_platillos orderData w :
  createOrder orderData None w
  = (Throw (AppError "El pedido debe incluir al menos un platillo."
                     JS.undefined), w)
  /\ createOrder orderData (Some []) w
     = (Throw (AppError "El pedido debe incluir al menos un platillo."
                        JS.undefined), w)
  /\ AppError_statusCode JS.undefined = JS.number 500
  /\ AppError_statusCode JS.undefined <> JS.number 400.
Proof.
  repeat split. discriminate.
Qed.

(** The order is refused at the first line with a falsy field, whatever
    follows that line. *)
Lemma createOrder_stops_at orderData pre bad post w :
  Forall truthy_fields pre ->
  falsy_field bad ->
  createOrder orderData (Some (pre ++ bad :: post)) w
  = (Throw missing_fields, w).
Proof.
  intros Hpre Hbad.
  pose proof (forEach_check_stops pre bad post w Hpre Hbad) as Hloop.
  unfold OrderService.createOrder.
  destruct (pre ++ bad :: post) as [| p ps] eqn:E.
  - now destruct pre.
  - unfold bind. now rewrite Hloop.
Qed.

(** C2.  If some line of the list has a falsy [platilloId] or a falsy
    [cantidad] (absent, [null], [0], [NaN], the empty string), then
    [createOrder] throws its validation error and the world, call log
    included, is as it was: nothing was sent to the repository.  The error
    comes from the first such line in list order: the lines before it all
    pass the check, and the outcome is the same whatever follows it. *)
Theorem createOrder_rejects_first_falsy_platillo orderData ps w :
  Exists falsy_field ps ->
  createOrder orderData (Some ps) w
  = (Throw (AppError "Cada platillo debe incluir platilloId y cantidad."
                     JS.undefined), w)
  /\ exists pre bad post,
       ps = pre ++ bad :: post
       /\ Forall truthy_fields pre
       /\ falsy_field bad
       /\ forall post',
            createOrder orderData (Some (pre ++ bad :: post')) w
            = (Throw (AppError
                        "Cada platillo debe incluir platilloId y cantidad."
                        JS.undefined), w).
Proof.
  intros Hex.
  destruct (first_falsy_split ps Hex) as (pre & bad & post & -> & Hpre & Hbad).
  split; [now apply createOrder_stops_at |].
  exists pre, bad, post. repeat split; try assumption.
  intros post'. now apply createOrder_stops_at.
Qed.

(** *** Updating the status of an order line *)

(** C4.  For a status of the enum, when the lookup of the line under the
    order resolves to an empty array, [updatePlatilloStatus] throws
    [NotFoundError]; the lookup is the only repository call it has made, so
    no status write was issued. *)
Theorem updatePlatilloStatus_missing_platillo
    pedidoId platilloId estado w db1 :
  In estado (validStates Pedido) ->
  findPlatilloById repo pedidoId platilloId (db w) = (inr [], db1) ->
  updatePlatilloStatus pedidoId platilloId estado w
  = (Throw (NotFoundError
              ("Platillo con ID " ++ JS.toString platilloId
                 ++ " no encontrado en el pedido "
                 ++ JS.toString pedidoId ++ ".")%string),
     mkWorld db1 (calls w ++ [CallFindPlatilloById pedidoId platilloId])).
Proof.
  intros Hin Hfind. apply JSFacts.includes_In in Hin.
  unfold OrderService.updatePlatilloStatus. rewrite Hin. simpl.
  unfold bind, await. now rewrite Hfind.
Qed.

(** C5.  For a status of the enum, when the lookup resolves to at least one
    row and the write that follows reports zero affected rows,
    [updatePlatilloStatus] throws an [AppError] built with the code 500,
    which is then the code it carries. *)
Theorem updatePlatilloStatus_zero_affected_rows
    pedidoId platilloId estado w row rows db1 result db2 :
  In estado (validStates Pedido) ->
  findPlatilloById repo pedidoId platilloId (db w) = (inr (row :: rows), db1) ->
  Repo.updatePlatilloStatus repo pedidoId platilloId estado db1
  = (inr result, db2) ->
  affectedRows result = 0%Z ->
  updatePlatilloStatus pedidoId platilloId estado w
  = (Throw (AppError "No se pudo actualizar el estado del platillo."
                     (JS.number 500)),
     mkWorld db2 (calls w ++ [CallFindPlatilloById pedidoId platilloId;
                              CallUpdatePlatilloStatus pedidoId platilloId
                                                       estado]))
  /\ AppError_statusCode (JS.number 500) = JS.number 500.
Proof.
  intros Hin Hfind Hupd Hzero. apply JSFacts.includes_In in Hin.
  split; [| reflexivity].
  unfold OrderService.updatePlatilloStatus. rewrite Hin. simpl.
  unfold bind, await. rewrite Hfind. simpl. rewrite Hupd, Hzero. simpl.
  now rewrite <- app_assoc.
Qed.

(** The remaining path: a row was found and the write affected some row. *)
Lemma updatePlatilloStatus_written
    pedidoId platilloId estado w row rows db1 result db2 :
  In estado (validStates Pedido) ->
  findPlatilloById repo pedidoId platilloId (db w) = (inr (row :: rows), db1) ->
  Repo.updatePlatilloStatus repo pedidoId platilloId estado db1
  = (inr result, db2) ->
  affectedRows result <> 0%Z ->
  updatePlatilloStatus pedidoId platilloId estado w
  = (Return (JS.object
               [("message", JS.str "Estado actualizado correctamente.")]),
     mkWorld db2 (calls w ++ [CallFindPlatilloById pedidoId platilloId;
                              CallUpdatePlatilloStatus pedidoId platilloId
                                                       estado])).
Proof.
  intros Hin Hfind Hupd Hnz. apply JSFacts.includes_In in Hin.
  apply Z.eqb_neq in Hnz.
  unfold OrderService.updatePlatilloStatus. rewrite Hin. simpl.
  unfold bind, await. rewrite Hfind. simpl. rewrite Hupd, Hnz. simpl.
  now rewrite <- app_assoc.
Qed.

(** *** Listing the orders *)

(** C6.  Once [findAll] has resolved, [getAll] throws [NotFoundError] when
    the result is no array or an empty one, and otherwise returns one order
    per row, each built from its row by [Order.fromDB], in the order of the
    rows. *)
Theorem getAll_empty_is_NotFound restaurantId w rows db1 :
  findAll repo restaurantId (db w) = (inr rows, db1) ->
  let w1 := mkWorld db1 (calls w ++ [CallFindAll restaurantId]) in
  (rows = None \/ rows = Some [] ->
   getAll restaurantId w
   = (Throw (NotFoundError "No se encontraron pedidos."), w1))
  /\ (forall r rs, rows = Some (r :: rs) ->
      exists orders,
        getAll restaurantId w = (Return orders, w1)
        /\ length orders = length (r :: rs)
        /\ Forall2 (fun row order => order = Order_fromDB row)
                   (r :: rs) orders).
Proof.
  intros Hfind w1. unfold OrderService.getAll, bind, await.
  rewrite Hfind. split.
  - intros [-> | ->]; reflexivity.
  - intros r rs ->. exists (map Order_fromDB (r :: rs)).
    split; [reflexivity |]. split; [apply length_map |].
    generalize (r :: rs). intros l. induction l; simpl; constructor; auto.
Qed.

(** *** Cancelling *)

(** What [cancelOrder] does with either answer of the repository. *)
Lemma cancelOrder_run pedidoId platilloId w r db1 :
  Repo.cancelOrder repo pedidoId (JS.default JS.null platilloId) (db w)
  = (r, db1) ->
  cancelOrder pedidoId platilloId w
  = (match r with
     | inr c => Return c
     | inl e =>
         Throw (AppError
                  ("Error al cancelar el "
                     ++ (if JS.truthy (JS.default JS.null platilloId)
                         then "platillo" else "pedido")
                     ++ ": " ++ message e)%string
                  (JS.or (statusCode e) (JS.number 500)))
     end,
     mkWorld db1 (calls w ++ [CallCancelOrder pedidoId
                                (JS.default JS.null platilloId)])).
Proof.
  intros Hrun. unfold OrderService.cancelOrder, try_catch, await.
  rewrite Hrun. now destruct r.
Qed.

(** C7.  [cancelOrder] makes one repository call, passing the order id and
    the item id, [null] when none was given.  If the call resolves, its
    value is returned.  If it rejects with [e], an [AppError] is thrown whose
    message is "Error al cancelar el pedido: " or "Error al cancelar el
    platillo: " followed by the message of [e]: "pedido" when no item id
    was given, "platillo" when a truthy one was.  Its code is that of
    [e], or 500 when [e] has none. *)
Theorem cancelOrder_delegates_and_wraps pedidoId platilloId w r db1 :
  Repo.cancelOrder repo pedidoId (JS.default JS.null platilloId) (db w)
  = (r, db1) ->
  exists forwarded,
    let w1 := mkWorld db1 (calls w ++ [CallCancelOrder pedidoId forwarded]) in
    (platilloId = JS.undefined \/ platilloId = JS.null ->
     forwarded = JS.null)
    /\ (JS.truthy platilloId = true -> forwarded = platilloId)
    /\ (forall c, r = inr c ->
        cancelOrder pedidoId platilloId w = (Return c, w1))
    /\ (forall e, r = inl e ->
        exists label code,
          cancelOrder pedidoId platilloId w
          = (Throw (AppError ("Error al cancelar el " ++ label ++ ": "
                                ++ message e)%string code), w1)
          /\ (platilloId = JS.undefined \/ platilloId = JS.null ->
              label = "pedido"%string)
          /\ (JS.truthy platilloId = true -> label = "platillo"%string)
          /\ (statusCode e = JS.undefined -> code = JS.number 500)
          /\ (JS.truthy (statusCode e) = true -> code = statusCode e)).
Proof.
  intros Hrun. exists (JS.default JS.null platilloId).
  pose proof (cancelOrder_run _ _ _ _ _ Hrun) as Heq.
  split; [intros [-> | ->]; reflexivity |].
  split; [intros Ht; destruct platilloId; try reflexivity; discriminate |].
  split; [intros c ->; exact Heq |].
  intros e ->.
  exists (if JS.truthy (JS.default JS.null platilloId)
          then "platillo" else "pedido")%string,
         (JS.or (statusCode e) (JS.number 500)).
  split; [exact Heq |].
  split; [intros [-> | ->]; reflexivity |].
  split.
  - intros Ht. destruct platilloId; simpl in *; try discriminate;
      now rewrite ?Ht.
  - split; [intros ->; reflexivity | apply JSFacts.or_truthy].
Qed.

(** C10.  When the item id passed is falsy ([0], the empty string, [null],
    [false], [NaN]; an explicit [undefined] is an omitted argument), the
    repository is still called with that very id, and a rejection [e] is
    wrapped in an [AppError] whose message says "pedido", not "platillo":
    the label follows the truthiness of the id, not its presence. *)
Theorem cancelOrder_falsy_platilloId_says_pedido
    pedidoId platilloId w e db1 :
  JS.truthy platilloId = false ->
  platilloId <> JS.undefined ->
  Repo.cancelOrder repo pedidoId platilloId (db w) = (inl e, db1) ->
  cancelOrder pedidoId platilloId w
  = (Throw (AppError ("Error al cancelar el pedido: " ++ message e)%string
                     (JS.or (statusCode e) (JS.number 500))),
     mkWorld db1 (calls w ++ [CallCancelOrder pedidoId platilloId])).
Proof.
  intros Hfalsy Hdef Hrun.
  pose proof (JSFacts.default_defined JS.null _ Hdef) as Hd.
  rewrite <- Hd in Hrun.
  rewrite (cancelOrder_run _ _ _ _ _ Hrun), Hd. now rewrite Hfalsy.
Qed.

End Spec.

End OrderServiceSpec.

(** ** The session cookie *)

Module JwtSpec.
Import Errors Jwt.
Local Open Scope list_scope.

Section Spec.
Variable jwt_sign : JS.Obj -> string -> JS.value -> string.
Variable config : AuthConfig.

Local Abbreviation createJWT := (createJWT jwt_sign config).
Local Abbreviation createCookie := (createCookie config).
Local Abbreviation createJWTCookie := (createJWTCookie jwt_sign config).

(** The flag of [createCookie] is off for the one value "development". *)
Lemma isProduction_development (NODE_ENV : option string) :
  JS.not (env_value NODE_ENV)
  || differs_from (env_value NODE_ENV) "development"
  = false <-> NODE_ENV = Some "development"%string.
Proof.
  destruct NODE_ENV as [s |]; simpl; [| split; discriminate].
  unfold JS.not. simpl. rewrite orb_false_iff, !negb_false_iff. split.
  - intros [_ H]. apply String.eqb_eq in H. now subst.
  - intros [= ->]. split; reflexivity.
Qed.

(** C8.  [createCookie] sets exactly one cookie, with the name and value it
    was given; [httpOnly] is true and [maxAge] is the configured
    [jwtExpiration]; with [NODE_ENV] anything but "development", unset
    included, [secure] is true and [sameSite] is "None"; with "development",
    [secure] is false and [sameSite] is "Lax".  [createJWTCookie] is
    [createCookie] under the name "token" with the signed token as value. *)
Theorem session_cookie_attributes
    (NODE_ENV : option string) (res : Response) (name value : string)
    (data : JS.Obj) :
  (exists c,
     createCookie NODE_ENV res name value = res ++ [c]
     /\ cookie_name c = name
     /\ cookie_value c = value
     /\ httpOnly (cookie_options c) = true
     /\ maxAge (cookie_options c) = jwtExpiration config
     /\ (NODE_ENV <> Some "development"%string ->
         secure (cookie_options c) = true
         /\ sameSite (cookie_options c) = "None"%string)
     /\ (NODE_ENV = Some "development"%string ->
         secure (cookie_options c) = false
         /\ sameSite (cookie_options c) = "Lax"%string))
  /\ createJWTCookie NODE_ENV res data
     = createCookie NODE_ENV res "token" (createJWT data).
Proof.
  split; [| reflexivity].
  unfold Jwt.createCookie, res_cookie. eexists. split; [reflexivity |].
  simpl. repeat split.
  - destruct (JS.not (env_value NODE_ENV)
              || differs_from (env_value NODE_ENV) "development") eqn:E;
      [reflexivity |].
    apply isProduction_development in E. contradiction.
  - destruct (JS.not (env_value NODE_ENV)
              || differs_from (env_value NODE_ENV) "development") eqn:E;
      [reflexivity |].
    apply isProduction_development in E. contradiction.
  - subst. reflexivity.
  - subst. reflexivity.
Qed.

End Spec.

End JwtSpec.

(** ** Concrete runs *)

Module Runs.
Import Errors Repo Lines Fixture.
Local Open Scope list_scope.

(** A status outside the example enum, on both updates. *)
Lemma volando_is_rejected_without_400 :
  ~ In "volando"%string (OrderService.validStates Pedido)
  /\ OrderService.updatePlatilloStatus unit Pedido (scripted quiet)
       (JS.number 1) (JS.number 2) "volando" start
     = (Throw (AppError "Estado inválido. Estados permitidos: pendiente, preparando, listo, entregado, cancelado."
                        (JS.number 400)), start)
  /\ OrderService.updateOrderStatus unit Pedido (scripted quiet)
       (JS.number 1) "volando" start
     = (Throw (AppError "Estado inválido. Estados permitidos: pendiente, preparando, listo, entregado, cancelado."
                        JS.undefined), start).
Proof.
  assert (Hout : ~ In "volando"%string (OrderService.validStates Pedido)).
  { simpl. intros H. repeat (destruct H as [H | H]; [discriminate H |]).
    exact H. }
  split; [exact Hout |].
  pose proof (OrderServiceSpec.updateOrderStatus_invalid_estado_lacks_400
                unit Pedido (scripted quiet)
                (JS.number 1) (JS.number 2) "volando"%string start Hout)
    as (H1 & H2 & _).
  split; [exact H1 | exact H2].
Defined.

(** A zero quantity in the second line: the third line is never reached. *)
Lemma zero_cantidad_stops_the_loop :
  Exists falsy_field [platillo (JS.number 1) (JS.number 2);
                      platillo (JS.number 3) (JS.number 0);
                      platillo (JS.number 4) (JS.number (-2))]
  /\ OrderService.createOrder unit (scripted quiet) orderData
       (Some [platillo (JS.number 1) (JS.number 2);
              platillo (JS.number 3) (JS.number 0);
              platillo (JS.number 4) (JS.number (-2))]) start
     = (Throw (AppError "Cada platillo debe incluir platilloId y cantidad."
                        JS.undefined), start).
Proof.
  assert (Hex : Exists falsy_field
                  [platillo (JS.number 1) (JS.number 2);
                   platillo (JS.number 3) (JS.number 0);
                   platillo (JS.number 4) (JS.number (-2))]).
  { apply Exists_cons_tl, Exists_cons_hd. right. reflexivity. }
  split; [exact Hex |].
  exact (proj1 (OrderServiceSpec.createOrder_rejects_first_falsy_platillo
                  unit (scripted quiet) orderData _ start Hex)).
Defined.

(** A line with the quantity -1 has no positive quantity, and yet
    [createOrder] throws nothing: the list goes to the repository's
    [create], whose value is returned. *)
Lemma negative_cantidad_reaches_create :
  JS.prop negative_line "cantidad" = JS.number (-1)
  /\ (-1 <= 0)%Z
  /\ OrderService.createOrder unit (scripted quiet) orderData
       (Some [negative_line]) start
     = (Return orderData, mkWorld tt [CallCreate orderData [negative_line]])
  /\ (forall e w,
        OrderService.createOrder unit (scripted quiet) orderData
          (Some [negative_line]) start
        <> (Throw e, w)).
Proof.
  split; [reflexivity |]. split; [lia |].
  split; [reflexivity |]. intros e w. discriminate.
Qed.

(** No line 2 under order 1: only the lookup is logged. *)
Lemma absent_platillo_is_not_written :
  In "listo"%string (OrderService.validStates Pedido)
  /\ findPlatilloById (scripted quiet) (JS.number 1) (JS.number 2) (db start)
     = (inr [], tt)
  /\ OrderService.updatePlatilloStatus unit Pedido (scripted quiet)
       (JS.number 1) (JS.number 2) "listo" start
     = (Throw (NotFoundError
                 "Platillo con ID 2 no encontrado en el pedido 1."),
        mkWorld tt [CallFindPlatilloById (JS.number 1) (JS.number 2)]).
Proof.
  assert (Hin : In "listo"%string (OrderService.validStates Pedido)).
  { simpl. auto. }
  split; [exact Hin |]. split; [reflexivity |].
  exact (OrderServiceSpec.updatePlatilloStatus_missing_platillo
           unit Pedido (scripted quiet)
           (JS.number 1) (JS.number 2) "listo"%string start tt
           Hin eq_refl).
Defined.

(** Line 2 is found under order 1, and the write affects no row. *)
Lemma stale_platillo_write_is_500 :
  In "listo"%string (OrderService.validStates Pedido)
  /\ findPlatilloById (scripted stale) (JS.number 1) (JS.number 2) (db start)
     = (inr [JS.object [("id", JS.number 2)]], tt)
  /\ Repo.updatePlatilloStatus (scripted stale) (JS.number 1) (JS.number 2)
       "listo" tt
     = (inr (mkUpdateResult 0), tt)
  /\ OrderService.updatePlatilloStatus unit Pedido (scripted stale)
       (JS.number 1) (JS.number 2) "listo" start
     = (Throw (AppError "No se pudo actualizar el estado del platillo."
                        (JS.number 500)),
        mkWorld tt [CallFindPlatilloById (JS.number 1) (JS.number 2);
                    CallUpdatePlatilloStatus (JS.number 1) (JS.number 2)
                                             "listo"]).
Proof.
  assert (Hin : In "listo"%string (OrderService.validStates Pedido)).
  { simpl. auto. }
  split; [exact Hin |]. split; [reflexivity |]. split; [reflexivity |].
  exact (proj1 (OrderServiceSpec.updatePlatilloStatus_zero_affected_rows
                  unit Pedido (scripted stale)
                  (JS.number 1) (JS.number 2) "listo"%string start
                  (JS.object [("id", JS.number 2)]) [] tt
                  (mkUpdateResult 0) tt
                  Hin eq_refl eq_refl eq_refl)).
Defined.

(** Restaurant 7 has no orders; restaurant 8, under [busy], has two. *)
Lemma restaurant_without_orders :
  findAll (scripted quiet) (JS.number 7) (db start) = (inr (Some []), tt)
  /\ OrderService.getAll unit fromDB (scripted quiet) (JS.number 7) start
     = (Throw (NotFoundError "No se encontraron pedidos."),
        mkWorld tt [CallFindAll (JS.number 7)])
  /\ OrderService.getAll unit fromDB (scripted busy) (JS.number 8) start
     = (Return [order_row 10; order_row 11],
        mkWorld tt [CallFindAll (JS.number 8)]).
Proof.
  split; [reflexivity |]. split.
  - exact (proj1 (OrderServiceSpec.getAll_empty_is_NotFound
                    unit fromDB (scripted quiet) (JS.number 7) start
                    (Some []) tt eq_refl)
                 (or_intror eq_refl)).
  - reflexivity.
Defined.

(** A rejected cancellation of item 5 of order 1, and of the whole order. *)
Lemma rejected_item_cancellation :
  Repo.cancelOrder (scripted unreachable) (JS.number 1) (JS.number 5)
    (db start)
  = (inl (mkJSError "sin conexion" JS.undefined), tt)
  /\ OrderService.cancelOrder unit (scripted unreachable)
       (JS.number 1) (JS.number 5) start
     = (Throw (AppError "Error al cancelar el platillo: sin conexion"
                        (JS.number 500)),
        mkWorld tt [CallCancelOrder (JS.number 1) (JS.number 5)]).
Proof.
  split; [reflexivity |].
  destruct (OrderServiceSpec.cancelOrder_delegates_and_wraps
              unit (scripted unreachable) (JS.number 1) (JS.number 5) start
              (inl (mkJSError "sin conexion" JS.undefined)) tt eq_refl)
    as (forwarded & _ & Hfwd & _ & Hfail).
  destruct (Hfail _ eq_refl) as (label & code & Hrun & _ & Hlabel & Hcode & _).
  rewrite Hrun, (Hfwd eq_refl), (Hlabel eq_refl), (Hcode eq_refl).
  reflexivity.
Defined.

(** The item id 0: forwarded as it is, reported as "pedido". *)
Lemma item_id_zero_reported_as_pedido :
  JS.truthy (JS.number 0) = false
  /\ JS.number 0 <> JS.undefined
  /\ Repo.cancelOrder (scripted unreachable) (JS.number 1) (JS.number 0)
       (db start)
     = (inl (mkJSError "sin conexion" JS.undefined), tt)
  /\ OrderService.cancelOrder unit (scripted unreachable)
       (JS.number 1) (JS.number 0) start
     = (Throw (AppError "Error al cancelar el pedido: sin conexion"
                        (JS.number 500)),
        mkWorld tt [CallCancelOrder (JS.number 1) (JS.number 0)]).
Proof.
  assert (Hdef : JS.number 0 <> JS.undefined) by discriminate.
  split; [reflexivity |]. split; [exact Hdef |]. split; [reflexivity |].
  exact (OrderServiceSpec.cancelOrder_falsy_platilloId_says_pedido
           unit (scripted unreachable) (JS.number 1) (JS.number 0) start
           (mkJSError "sin conexion" JS.undefined) tt
           eq_refl Hdef eq_refl).
Defined.

(** The cookie set with [NODE_ENV] unset, and with "development". *)
Lemma cookies_by_environment :
  (None <> Some "development"%string
   /\ Jwt.createJWTCookie sign config None [] [("role", JS.str "customer")]
      = [Jwt.mkCookie "token" "t.secreto"
           (Jwt.mkCookieOptions true true "None" (JS.number 3600000))])
  /\ Jwt.createJWTCookie sign config (Some "development"%string) []
       [("role", JS.str "customer")]
     = [Jwt.mkCookie "token" "t.secreto"
          (Jwt.mkCookieOptions true false "Lax" (JS.number 3600000))].
Proof.
  assert (Hunset : None <> Some "development"%string) by discriminate.
  split; [split; [exact Hunset |] |].
  - destruct (JwtSpec.session_cookie_attributes sign config None []
                "token"%string "t.secreto"%string
                [("role", JS.str "customer")])
      as [(c & Hset & Hname & Hvalue & Hhttp & Hage & Hprod & _) Hjwt].
    destruct (Hprod Hunset) as [Hsecure Hsite].
    rewrite Hjwt. change (Jwt.createJWT sign config
                            [("role", JS.str "customer")])
      with "t.secreto"%string.
    rewrite Hset. destruct c as [n v [h sc ss ma]]. simpl in *.
    now subst.
  - reflexivity.
Defined.

End Runs.

(** ** The order service: every way a call can end *)

Module OrderServiceOutcomes.
Import Errors Repo OrderService Lines.
Local Open Scope list_scope.

Section Outcomes.
Variable DB : Type.
Variable Pedido : list (string * string).
Variable Order_fromDB : JS.value -> JS.value.
Variable repo : OrderRepository DB.

Local Abbreviation getAll := (getAll DB Order_fromDB repo).
Local Abbreviation getOrder := (getOrder DB repo).
Local Abbreviation updatePlatilloStatus := (updatePlatilloStatus DB Pedido repo).
Local Abbreviation updateOrderStatus := (updateOrderStatus DB Pedido repo).
Local Abbreviation createOrder := (createOrder DB repo).
Local Abbreviation cancelOrder := (cancelOrder DB repo).

Lemma estado_cases estado :
  (JS.includes (validStates Pedido) estado = true
   /\ In estado (validStates Pedido))
  \/ (JS.includes (validStates Pedido) estado = false
      /\ ~ In estado (validStates Pedido)).
Proof.
  destruct (JS.includes (validStates Pedido) estado) eqn:E.
  - left. split; [reflexivity | now apply JSFacts.includes_In].
  - right. split; [reflexivity |]. intros Hin.
    apply JSFacts.includes_In in Hin. congruence.
Qed.


(** X2.  [updateOrderStatus] ends in one of two ways.  For a status outside
    the enum it throws its validation error and the world is untouched.  For
    a status of the enum it makes exactly one call, [updateStatusById], and
    hands on what that call gave: the resolved value as it is, a rejection
    unwrapped. *)
Theorem updateOrderStatus_outcomes id estado w out w' :
  updateOrderStatus id estado w = (out, w') ->
  (~ In estado (validStates Pedido)
   /\ out = Throw (AppError (invalid_estado_message Pedido) JS.undefined)
   /\ w' = w)
  \/ (In estado (validStates Pedido)
      /\ calls w' = calls w ++ [CallUpdateStatusById id estado]
      /\ exists r,
           updateStatusById repo id estado (db w) = (r, db w')
           /\ out = match r with
                    | inl e => Throw (Rejected e)
                    | inr updated => Return updated
                    end).
Proof.
  unfold OrderService.updateOrderStatus.
  destruct (estado_cases estado) as [[-> Hin] | [-> Hout]]; simpl.
  - unfold bind, await, ret.
    destruct (updateStatusById repo id estado (db w)) as [[e | u] db1];
      simpl; intros [= <- <-]; right; simpl;
      (split; [assumption |]); (split; [reflexivity |]);
      eexists; split; reflexivity.
  - unfold throw. intros [= <- <-]. left. repeat split. assumption.
Qed.

(** The six paths through [updatePlatilloStatus]. *)
Lemma updatePlatilloStatus_paths pedidoId platilloId estado w :
  let lookup := CallFindPlatilloById pedidoId platilloId in
  let write := CallUpdatePlatilloStatus pedidoId platilloId estado in
  (~ In estado (validStates Pedido)
   /\ updatePlatilloStatus pedidoId platilloId estado w
      = (Throw (AppError (invalid_estado_message Pedido) (JS.number 400)), w))
  \/ (In estado (validStates Pedido)
      /\ ((exists e db1,
             findPlatilloById repo pedidoId platilloId (db w) = (inl e, db1)
             /\ updatePlatilloStatus pedidoId platilloId estado w
                = (Throw (Rejected e), mkWorld db1 (calls w ++ [lookup])))
          \/ (exists db1,
                findPlatilloById repo pedidoId platilloId (db w)
                = (inr [], db1)
                /\ updatePlatilloStatus pedidoId platilloId estado w
                   = (Throw (NotFoundError
                               ("Platillo con ID " ++ JS.toString platilloId
                                  ++ " no encontrado en el pedido "
                                  ++ JS.toString pedidoId ++ ".")%string),
                      mkWorld db1 (calls w ++ [lookup])))
          \/ (exists row rows db1 r db2,
                findPlatilloById repo pedidoId platilloId (db w)
                = (inr (row :: rows), db1)
                /\ Repo.updatePlatilloStatus repo pedidoId platilloId estado db1
                   = (r, db2)
                /\ updatePlatilloStatus pedidoId platilloId estado w
                   = (match r with
                      | inl e => Throw (Rejected e)
                      | inr result =>
                          if Z.eqb (affectedRows result) 0
                          then Throw (AppError
                                        "No se pudo actualizar el estado del platillo."
                                        (JS.number 500))
                          else Return (JS.object
                                         [("message",
                                           JS.str "Estado actualizado correctamente.")])
                      end,
                      mkWorld db2 (calls w ++ [lookup; write]))))).
Proof.
  intros lookup write. unfold OrderService.updatePlatilloStatus.
  destruct (estado_cases estado) as [[-> Hin] | [-> Hout]]; simpl.
  2: { left. split; [assumption | reflexivity]. }
  right. split; [assumption |]. unfold bind, await.
  destruct (findPlatilloById repo pedidoId platilloId (db w))
    as [[e | [| row rows]] db1]; simpl.
  - left. exists e, db1. split; reflexivity.
  - right. left. exists db1. split; reflexivity.
  - right. right.
    destruct (Repo.updatePlatilloStatus repo pedidoId platilloId estado db1)
      as [r db2] eqn:Hw.
    exists row, rows, db1, r, db2. split; [reflexivity |].
    split; [exact Hw |].
    destruct r as [e | result]; simpl; rewrite <- app_assoc; simpl;
      [reflexivity |].
    now destruct (Z.eqb (affectedRows result) 0).
Qed.

(** X3.  Whatever the outcome, [updatePlatilloStatus] has issued no call,
    the lookup alone, or the lookup followed by the write; and the write is
    issued only for a status of the enum and after the lookup resolved to at
    least one row. *)
Theorem updatePlatilloStatus_write_needs_found_row
    pedidoId platilloId estado w out w' :
  updatePlatilloStatus pedidoId platilloId estado w = (out, w') ->
  exists issued,
    calls w' = calls w ++ issued
    /\ (issued = []
        \/ issued = [CallFindPlatilloById pedidoId platilloId]
        \/ issued = [CallFindPlatilloById pedidoId platilloId;
                     CallUpdatePlatilloStatus pedidoId platilloId estado])
    /\ (In (CallUpdatePlatilloStatus pedidoId platilloId estado) issued ->
        In estado (validStates Pedido)
        /\ exists row rows db1,
             findPlatilloById repo pedidoId platilloId (db w)
             = (inr (row :: rows), db1)).
Proof.
  intros Hrun.
  destruct (updatePlatilloStatus_paths pedidoId platilloId estado w)
    as [[Hout Heq]
       | [Hin [(e & db1 & Hfind & Heq)
              | [(db1 & Hfind & Heq)
                | (row & rows & db1 & r & db2 & Hfind & Hwrite & Heq)]]]];
    rewrite Heq in Hrun; injection Hrun as <- <-.
  - exists []. split; [now rewrite app_nil_r |]. split; [now left |].
    intros [].
  - eexists. split; [reflexivity |]. split; [right; now left |].
    intros [H | []]. discriminate H.
  - eexists. split; [reflexivity |]. split; [right; now left |].
    intros [H | []]. discriminate H.
  - eexists. split; [reflexivity |]. split; [right; now right |].
    intros _. split; [assumption |]. now exists row, rows, db1.
Qed.

(** X4.  When [updatePlatilloStatus] returns, it returns the fixed
    confirmation message, and then the status was of the enum, the lookup
    found the line, and the write resolved with a non-zero count of affected
    rows. *)
Theorem updatePlatilloStatus_Return_means_written
    pedidoId platilloId estado w r w' :
  updatePlatilloStatus pedidoId platilloId estado w = (Return r, w') ->
  r = JS.object [("message", JS.str "Estado actualizado correctamente.")]
  /\ In estado (validStates Pedido)
  /\ calls w' = calls w ++ [CallFindPlatilloById pedidoId platilloId;
                            CallUpdatePlatilloStatus pedidoId platilloId
                                                     estado]
  /\ exists row rows db1 result,
       findPlatilloById repo pedidoId platilloId (db w)
       = (inr (row :: rows), db1)
       /\ Repo.updatePlatilloStatus repo pedidoId platilloId estado db1
          = (inr result, db w')
       /\ affectedRows result <> 0%Z.
Proof.
  intros Hrun.
  destruct (updatePlatilloStatus_paths pedidoId platilloId estado w)
    as [[Hout Heq]
       | [Hin [(e & db1 & Hfind & Heq)
              | [(db1 & Hfind & Heq)
                | (row & rows & db1 & res & db2 & Hfind & Hwrite & Heq)]]]];
    rewrite Heq in Hrun; try discriminate Hrun.
  destruct res as [e | result]; [discriminate Hrun |].
  destruct (Z.eqb (affectedRows result) 0) eqn:Hz; [discriminate Hrun |].
  injection Hrun as <- <-. simpl.
  split; [reflexivity |]. split; [assumption |]. split; [reflexivity |].
  exists row, rows, db1, result. split; [assumption |].
  split; [assumption |]. now apply Z.eqb_neq.
Qed.

(** X5.  For a status of the enum, [updatePlatilloStatus] hands a rejection
    of the repository on as it is.  When the lookup rejects with [e], [e] is
    thrown and no write is issued; when the lookup found a row and the write
    rejects with [e], [e] is thrown.  Neither is wrapped in an
    [AppError]. *)
Theorem updatePlatilloStatus_rejections_pass_through
    pedidoId platilloId estado w :
  In estado (validStates Pedido) ->
  (forall e db1,
      findPlatilloById repo pedidoId platilloId (db w) = (inl e, db1) ->
      updatePlatilloStatus pedidoId platilloId estado w
      = (Throw (Rejected e),
         mkWorld db1 (calls w ++ [CallFindPlatilloById pedidoId platilloId])))
  /\ (forall row rows db1 e db2,
        findPlatilloById repo pedidoId platilloId (db w)
        = (inr (row :: rows), db1) ->
        Repo.updatePlatilloStatus repo pedidoId platilloId estado db1
        = (inl e, db2) ->
        updatePlatilloStatus pedidoId platilloId estado w
        = (Throw (Rejected e),
           mkWorld db2
             (calls w ++ [CallFindPlatilloById pedidoId platilloId;
                          CallUpdatePlatilloStatus pedidoId platilloId
                                                   estado]))).
Proof.
  intros Hin.
  destruct (updatePlatilloStatus_paths pedidoId platilloId estado w)
    as [[Hout _]
       | [_ [(e' & db1' & Hfind & Heq)
            | [(db1' & Hfind & Heq)
              | (row' & rows' & db1' & r & db2' & Hfind & Hwrite & Heq)]]]];
    [contradiction | | |]; split.
  - intros e db1 H. rewrite Hfind in H. injection H as <- <-. exact Heq.
  - intros row rows db1 e db2 H. rewrite Hfind in H. discriminate H.
  - intros e db1 H. rewrite Hfind in H. discriminate H.
  - intros row rows db1 e db2 H. rewrite Hfind in H. discriminate H.
  - intros e db1 H. rewrite Hfind in H. discriminate H.
  - intros row rows db1 e db2 H Hw. rewrite Hfind in H.
    injection H as <- <- <-. rewrite Hwrite in Hw. injection Hw as -> <-.
    exact Heq.
Qed.

(** X7.  A list that is not empty and whose lines all have truthy fields
    goes to the repository in one [create] call, together with the order
    data, both exactly as they were passed; what the call resolves to is
    returned, and its rejection is thrown as it is. *)
Theorem createOrder_accepted_passes_through orderData ps w r db1 :
  ps <> [] ->
  Forall truthy_fields ps ->
  create repo orderData ps (db w) = (r, db1) ->
  createOrder orderData (Some ps) w
  = (match r with
     | inl e => Throw (Rejected e)
     | inr created => Return created
     end,
     mkWorld db1 (calls w ++ [CallCreate orderData ps])).
Proof.
  intros Hne Hall Hcreate. destruct ps as [| p ps]; [contradiction |].
  rewrite (OrderServiceSpec.createOrder_delegates DB repo _ _ _ w Hall).
  unfold await. rewrite Hcreate. now destruct r.
Qed.

(** X8.  When the repository rejects a cancellation with an error object
    [e], the [AppError] that [cancelOrder] throws carries the status code of
    [e] when that code is truthy, and 500 when it is falsy, be it absent,
    [null], [0] or [NaN]; so the code it carries is always truthy. *)
Theorem cancelOrder_code_is_truthy pedidoId platilloId w e db1 :
  Repo.cancelOrder repo pedidoId (JS.default JS.null platilloId) (db w)
  = (inl e, db1) ->
  exists msg code,
    cancelOrder pedidoId platilloId w
    = (Throw (AppError msg code),
       mkWorld db1 (calls w ++ [CallCancelOrder pedidoId
                                  (JS.default JS.null platilloId)]))
    /\ JS.truthy code = true
    /\ (JS.truthy (statusCode e) = true -> code = statusCode e)
    /\ (JS.truthy (statusCode e) = false -> code = JS.number 500).
Proof.
  intros Hcall.
  rewrite (OrderServiceSpec.cancelOrder_run DB repo _ _ _ _ _ Hcall).
  eexists. exists (JS.or (statusCode e) (JS.number 500)).
  split; [reflexivity |]. unfold JS.or.
  destruct (JS.truthy (statusCode e)) eqn:E.
  - split; [exact E |]. split; [reflexivity | discriminate].
  - split; [reflexivity |]. split; [discriminate | reflexivity].
Qed.

(** X9.  [getAll] never returns an empty list: when it returns, [findAll]
    resolved to an array of at least one row, and the orders are those rows
    through [Order.fromDB]. *)
Theorem getAll_Return_is_nonempty restaurantId w orders w' :
  getAll restaurantId w = (Return orders, w') ->
  orders <> []
  /\ exists row rows,
       findAll repo restaurantId (db w) = (inr (Some (row :: rows)), db w')
       /\ orders = map Order_fromDB (row :: rows).
Proof.
  unfold OrderService.getAll, bind, await, ret, throw.
  destruct (findAll repo restaurantId (db w)) as [[e | [[| row rows] |]] db1];
    simpl; try discriminate.
  intros [= <- <-]. split; [discriminate |].
  exists row, rows. split; reflexivity.
Qed.

(** X10.  Whatever its outcome, [getAll] has made exactly one repository
    call, [findAll].  A rejection of that call is thrown as it is; a result
    that is no array, or an empty one, gives [NotFoundError]; any other
    result is returned, row by row through [Order.fromDB]. *)
Theorem getAll_outcomes restaurantId w out w' :
  getAll restaurantId w = (out, w') ->
  calls w' = calls w ++ [CallFindAll restaurantId]
  /\ ((exists e,
         findAll repo restaurantId (db w) = (inl e, db w')
         /\ out = Throw (Rejected e))
      \/ ((findAll repo restaurantId (db w) = (inr None, db w')
           \/ findAll repo restaurantId (db w) = (inr (Some []), db w'))
          /\ out = Throw (NotFoundError "No se encontraron pedidos."))
      \/ (exists row rows,
            findAll repo restaurantId (db w)
            = (inr (Some (row :: rows)), db w')
            /\ out = Return (map Order_fromDB (row :: rows)))).
Proof.
  unfold OrderService.getAll, bind, await, ret, throw.
  destruct (findAll repo restaurantId (db w)) as [[e | [[| row rows] |]] db1];
    simpl; intros [= <- <-]; simpl; (split; [reflexivity |]).
  - left. now exists e.
  - right. left. split; [now right | reflexivity].
  - right. right. now exists row, rows.
  - right. left. split; [now left | reflexivity].
Qed.

End Outcomes.

End OrderServiceOutcomes.

(** ** The address model *)

Module AddressSpec.
Import Address.

Lemma or_null_normal (v : JS.value) : normal (JS.or v JS.null).
Proof.
  unfold normal, JS.or. destruct (JS.truthy v) eqn:E; [now right | now left].
Qed.

Lemma or_null_of_normal (v : JS.value) : normal v -> JS.or v JS.null = v.
Proof.
  unfold JS.or. intros [-> | ->]; reflexivity.
Qed.

Lemma or_null_falsy (v : JS.value) :
  JS.truthy v = false -> JS.or v JS.null = JS.null.
Proof.
  unfold JS.or. now intros ->.
Qed.

(** X11.  Every field of a constructed [Address] is [null] or truthy.  A
    truthy value passed for the id is kept; a falsy one, the id [0]
    included, is replaced by [null]; and with no argument at all the three
    fields are [null]. *)
Theorem new_normalises (data : JS.Obj) :
  normal (id (new (Some data)))
  /\ normal (ciudadId (new (Some data)))
  /\ normal (direccion (new (Some data)))
  /\ (JS.truthy (JS.prop data "id") = true ->
      id (new (Some data)) = JS.prop data "id")
  /\ (JS.truthy (JS.prop data "id") = false ->
      id (new (Some data)) = JS.null)
  /\ new None = mk JS.null JS.null JS.null.
Proof.
  unfold new; simpl.
  repeat (split; [apply or_null_normal |]).
  split; [apply JSFacts.or_truthy |].
  split; [apply or_null_falsy | reflexivity].
Qed.

(** X12.  Building an [Address] from the JSON view of a constructed
    [Address] gives that [Address] back, and so does it for any instance
    whose fields are [null] or truthy. *)
Theorem new_toJSON_round_trip (data : option JS.Obj) (a : t) :
  new (Some (toJSON (new data))) = new data
  /\ (normal (id a) -> normal (ciudadId a) -> normal (direccion a) ->
      new (Some (toJSON a)) = a).
Proof.
  assert (Hgen : forall b : t,
             normal (id b) -> normal (ciudadId b) -> normal (direccion b) ->
             new (Some (toJSON b)) = b).
  { intros [i c d]. simpl. intros Hi Hc Hd. unfold new, toJSON. simpl.
    now rewrite !or_null_of_normal. }
  split; [| apply Hgen].
  apply Hgen; unfold new; simpl; apply or_null_normal.
Qed.

(** X13.  [fromDB] reads the city from the column [ciudad_id], which the
    JSON view does not have: read back as a row, the JSON view of any
    [Address] yields the city [null], while an id and a street that are
    [null] or truthy survive. *)
Theorem fromDB_toJSON_loses_ciudadId (a : t) :
  ciudadId (fromDB (toJSON a)) = JS.null
  /\ (normal (id a) -> id (fromDB (toJSON a)) = id a)
  /\ (normal (direccion a) -> direccion (fromDB (toJSON a)) = direccion a).
Proof.
  destruct a as [i c d]. unfold fromDB, toJSON, new. simpl.
  split; [reflexivity |]. split; apply or_null_of_normal.
Qed.

End AddressSpec.

(** ** More concrete runs *)

Module MoreRuns.
Import Errors Repo Lines Fixture Doubles.
Local Open Scope list_scope.


(** A status of the enum, and a repository that rejects the update. *)
Lemma rejected_status_update_is_not_wrapped :
  OrderService.updateOrderStatus unit Pedido (rejecting gone)
    (JS.number 1) "listo" start
  = (Throw (Rejected gone),
     mkWorld tt [CallUpdateStatusById (JS.number 1) "listo"])
  /\ In "listo"%string (OrderService.validStates Pedido).
Proof.
  split; [reflexivity |].
  destruct (OrderServiceOutcomes.updateOrderStatus_outcomes
              unit Pedido (rejecting gone) (JS.number 1) "listo"%string
              start _ _ eq_refl)
    as [(_ & Hout & _) | (Hin & _)].
  - discriminate Hout.
  - exact Hin.
Defined.

(** The write was issued, so the line had been found. *)
Lemma stale_write_followed_a_found_row :
  OrderService.updatePlatilloStatus unit Pedido (scripted stale)
    (JS.number 1) (JS.number 2) "listo" start
  = (Throw (AppError "No se pudo actualizar el estado del platillo."
                     (JS.number 500)),
     mkWorld tt [CallFindPlatilloById (JS.number 1) (JS.number 2);
                 CallUpdatePlatilloStatus (JS.number 1) (JS.number 2)
                                          "listo"])
  /\ exists row rows db1,
       findPlatilloById (scripted stale) (JS.number 1) (JS.number 2) tt
       = (inr (row :: rows), db1).
Proof.
  split; [reflexivity |].
  destruct (OrderServiceOutcomes.updatePlatilloStatus_write_needs_found_row
              unit Pedido (scripted stale) (JS.number 1) (JS.number 2)
              "listo"%string start _ _ eq_refl)
    as (issued & Hlog & _ & Hneeds).
  simpl in Hlog. subst issued.
  exact (proj2 (Hneeds (or_intror (or_introl eq_refl)))).
Defined.

(** The line is found and one row is written. *)
Lemma kept_platillo_is_confirmed :
  OrderService.updatePlatilloStatus unit Pedido (scripted kept)
    (JS.number 1) (JS.number 2) "listo" start
  = (Return (JS.object
               [("message", JS.str "Estado actualizado correctamente.")]),
     mkWorld tt [CallFindPlatilloById (JS.number 1) (JS.number 2);
                 CallUpdatePlatilloStatus (JS.number 1) (JS.number 2)
                                          "listo"])
  /\ In "listo"%string (OrderService.validStates Pedido).
Proof.
  split; [reflexivity |].
  exact (proj1 (proj2
    (OrderServiceOutcomes.updatePlatilloStatus_Return_means_written
       unit Pedido (scripted kept) (JS.number 1) (JS.number 2)
       "listo"%string start _ _ eq_refl))).
Defined.

(** The lookup itself is rejected. *)
Lemma rejected_lookup_comes_out_as_it_is :
  In "listo"%string (OrderService.validStates Pedido)
  /\ findPlatilloById (rejecting gone) (JS.number 1) (JS.number 2) (db start)
     = (inl gone, tt)
  /\ OrderService.updatePlatilloStatus unit Pedido (rejecting gone)
       (JS.number 1) (JS.number 2) "listo" start
     = (Throw (Rejected gone),
        mkWorld tt [CallFindPlatilloById (JS.number 1) (JS.number 2)]).
Proof.
  assert (Hin : In "listo"%string (OrderService.validStates Pedido)).
  { simpl. auto. }
  split; [exact Hin |]. split; [reflexivity |].
  exact (proj1 (OrderServiceOutcomes.updatePlatilloStatus_rejections_pass_through
                  unit Pedido (rejecting gone) (JS.number 1) (JS.number 2)
                  "listo"%string start Hin)
               gone tt eq_refl).
Defined.

(** Two good lines go to the repository as they are. *)
Lemma two_lines_are_created :
  two_lines <> []
  /\ Forall truthy_fields two_lines
  /\ create (scripted quiet) orderData two_lines (db start)
     = (inr orderData, tt)
  /\ OrderService.createOrder unit (scripted quiet) orderData
       (Some two_lines) start
     = (Return orderData, mkWorld tt [CallCreate orderData two_lines]).
Proof.
  assert (Hne : two_lines <> []) by discriminate.
  assert (Hall : Forall truthy_fields two_lines).
  { repeat constructor. }
  split; [exact Hne |]. split; [exact Hall |]. split; [reflexivity |].
  exact (OrderServiceOutcomes.createOrder_accepted_passes_through
           unit (scripted quiet) orderData two_lines start
           (inr orderData) tt Hne Hall eq_refl).
Defined.

(** A rejected cancellation keeps the 404 of the repository. *)
Lemma rejected_cancellation_keeps_its_404 :
  Repo.cancelOrder (rejecting gone) (JS.number 1)
    (JS.default JS.null JS.undefined) (db start)
  = (inl gone, tt)
  /\ exists msg,
       OrderService.cancelOrder unit (rejecting gone) (JS.number 1)
         JS.undefined start
       = (Throw (AppError msg (JS.number 404)),
          mkWorld tt [CallCancelOrder (JS.number 1) JS.null]).
Proof.
  split; [reflexivity |].
  destruct (OrderServiceOutcomes.cancelOrder_code_is_truthy
              unit (rejecting gone) (JS.number 1) JS.undefined start
              gone tt eq_refl)
    as (msg & code & Hrun & _ & Hkeep & _).
  exists msg. rewrite Hrun, (Hkeep eq_refl). reflexivity.
Defined.

(** Two orders stored, two orders returned. *)
Lemma busy_restaurant_lists_its_orders :
  OrderService.getAll unit fromDB (scripted busy) (JS.number 8) start
  = (Return [order_row 10; order_row 11],
     mkWorld tt [CallFindAll (JS.number 8)])
  /\ [order_row 10; order_row 11] <> [].
Proof.
  split; [reflexivity |].
  exact (proj1 (OrderServiceOutcomes.getAll_Return_is_nonempty
                  unit fromDB (scripted busy) (JS.number 8) start _ _
                  eq_refl)).
Defined.

(** A rejected listing is not turned into "no orders". *)
Lemma rejected_listing_comes_out_as_it_is :
  OrderService.getAll unit fromDB (rejecting gone) (JS.number 8) start
  = (Throw (Rejected gone), mkWorld tt [CallFindAll (JS.number 8)])
  /\ calls (mkWorld tt [CallFindAll (JS.number 8)])
     = calls start ++ [CallFindAll (JS.number 8)].
Proof.
  split; [reflexivity |].
  exact (proj1 (OrderServiceOutcomes.getAll_outcomes
                  unit fromDB (rejecting gone) (JS.number 8) start _ _
                  eq_refl)).
Defined.

(** An address with the id 0 has no id. *)
Lemma address_zero_has_no_id :
  JS.truthy (JS.prop [("id", JS.number 0)] "id") = false
  /\ Address.id (Address.new (Some [("id", JS.number 0)])) = JS.null.
Proof.
  split; [reflexivity |].
  destruct (AddressSpec.new_normalises [("id", JS.number 0)])
    as (_ & _ & _ & _ & Hfalsy & _).
  exact (Hfalsy eq_refl).
Defined.

(** An address read from a row and sent through its JSON view. *)
Lemma address_row_round_trip :
  Address.normal (Address.id (Address.fromDB address_row))
  /\ Address.new (Some (Address.toJSON (Address.fromDB address_row)))
     = Address.fromDB address_row.
Proof.
  split; [right; reflexivity |].
  apply (proj2 (AddressSpec.new_toJSON_round_trip
                  None (Address.fromDB address_row)));
    right; reflexivity.
Defined.

(** The same address, its JSON view read back as a row: the city is lost. *)
Lemma address_row_loses_its_city :
  Address.ciudadId (Address.fromDB address_row) = JS.number 9
  /\ Address.normal (Address.id (Address.fromDB address_row))
  /\ Address.ciudadId
       (Address.fromDB (Address.toJSON (Address.fromDB address_row)))
     = JS.null
  /\ Address.id
       (Address.fromDB (Address.toJSON (Address.fromDB address_row)))
     = JS.number 4.
Proof.
  split; [reflexivity |].
  assert (Hid : Address.normal (Address.id (Address.fromDB address_row))).
  { right. reflexivity. }
  split; [exact Hid |].
  destruct (AddressSpec.fromDB_toJSON_loses_ciudadId
              (Address.fromDB address_row)) as (Hcity & Hkeep & _).
  split; [exact Hcity | exact (Hkeep Hid)].
Defined.

End MoreRuns.

(** ** The session token *)

Module JwtRoundTrip.
Import Errors Wire JsonWebToken.
Local Open Scope list_scope.

(** The first binding of a key is not disturbed by what is appended. *)
Lemma prop_app (o extra : JS.Obj) (k : string) :
  In k (map fst o) -> JS.prop (o ++ extra) k = JS.prop o k.
Proof.
  induction o as [| [k' v] o IH]; simpl; [intros [] |].
  intros [-> | Hin].
  - now rewrite String.eqb_refl.
  - destruct (String.eqb k' k); [reflexivity | now apply IH].
Qed.

Section RoundTrip.
Variable mac : string -> string -> string.
Variable duration : JS.value -> Z.
Variable config : Jwt.AuthConfig.

(** A verification, at any instant and under any secret, of a token signed
    under that same secret. *)
Lemma verify_sign now now' payload secret expiresIn :
  verify mac now' (sign mac duration now payload secret expiresIn) secret
  = if (now' <? now + duration expiresIn)%Z
    then inr (payload ++ [("exp"%string,
                           JS.number (now + duration expiresIn))])
    else inl (unauthorized "jwt expired").
Proof.
  unfold verify, sign.
  rewrite list_ascii_of_string_of_list_ascii.
  set (expires := (now + duration expiresIn)%Z).
  set (signature := mac secret
                        (string_of_list_ascii (signed_part payload expires))).
  unfold signed_part at 1 2. rewrite <- !app_assoc.
  rewrite WireFacts.get_put_value.
  - rewrite WireFacts.get_put_Z.
    rewrite <- (app_nil_r (put_string signature)).
    rewrite WireFacts.get_put_string.
    subst signature. now rewrite String.eqb_refl.
  - apply Nat.lt_lt_succ_r.
    apply Nat.lt_le_trans
      with (1 := WireFacts.depth_lt_length (JS.object payload)).
    rewrite length_app. lia.
Qed.

(** C9.  With the token library as the spec describes it, a token made by
    [createJWT] at the instant [now] and verified by [verifyJWT] at an
    instant before the configured expiration has elapsed is accepted, and
    the payload returned holds every claim that was given, under its key and
    with its value. *)
Theorem verifyJWT_createJWT_round_trip (data : JS.Obj) (now now' : Z) :
  (now' < now + duration (Jwt.jwtExpiration config))%Z ->
  exists payload,
    Jwt.verifyJWT (verify mac now') config
      (Jwt.createJWT (sign mac duration now) config data)
    = inr payload
    /\ (forall k v, In (k, v) data -> In (k, v) payload)
    /\ (forall k, In k (map fst data) -> JS.prop payload k = JS.prop data k).
Proof.
  intros Hfresh. apply Z.ltb_lt in Hfresh.
  unfold Jwt.verifyJWT, Jwt.createJWT, Jwt.spread.
  rewrite verify_sign, Hfresh. eexists. split; [reflexivity |]. split.
  - intros k v Hin. apply in_or_app. now left.
  - intros k Hin. now apply prop_app.
Qed.

End RoundTrip.

(** A customer's token, made at instant 1000 and verified at instant 2000
    of a lifetime of 3600000. *)
Lemma customer_token_is_accepted :
  (2000 < 1000 + Doubles.units (Jwt.jwtExpiration Fixture.config))%Z
  /\ exists payload,
       Jwt.verifyJWT (verify Doubles.joined 2000) Fixture.config
         (Jwt.createJWT (sign Doubles.joined Doubles.units 1000)
            Fixture.config [("role"%string, JS.str "customer")])
       = inr payload
       /\ JS.prop payload "role" = JS.str "customer".
Proof.
  assert (Hfresh : (2000 < 1000
                    + Doubles.units (Jwt.jwtExpiration Fixture.config))%Z).
  { simpl. lia. }
  split; [exact Hfresh |].
  destruct (verifyJWT_createJWT_round_trip
              Doubles.joined Doubles.units Fixture.config
              [("role"%string, JS.str "customer")] 1000 2000 Hfresh)
    as (payload & Hok & _ & Hprop).
  exists payload. split; [exact Hok |].
  exact (Hprop "role"%string (or_introl eq_refl)).
Defined.

End JwtRoundTrip.
